(** * HighwayHalo: geofencing and speed estimation of [LocationTracker]

    Shallow embedding of the proximity and speed logic of
    [src/frontend/src/App.jsx].  The file holds two versions of
    [LocationTracker]: the first (lines 14-86) alerts on the first point
    within 100 m ([checkProximity]); the second (lines 242-347) estimates the
    speed from the previous position and alerts on the nearest point within
    10 m ([checkProximityAndSpeed]).

    JavaScript numbers are modelled by [num]: a real number or one of the
    IEEE special values the code can produce ([Infinity], [-Infinity],
    [NaN]).  Rounding of floating point arithmetic is not modelled; signed
    zeros are identified. *)

From Stdlib Require Import Reals Lra Lia ZArith String List.
Import ListNotations.
Open Scope R_scope.

(** ** JavaScript numbers *)

Inductive num : Type :=
| Fin (r : R)
| PInf
| NInf
| NaN.

(** [Math.sqrt]: NaN on a negative argument. *)
Definition js_sqrt (x : R) : num :=
  if Rlt_dec x 0 then NaN else Fin (sqrt x).

(** [Math.atan2(y, x)] on finite arguments (ECMA-262, 21.3.2.8). *)
Definition atan2 (y x : R) : R :=
  if Rlt_dec 0 x then atan (y / x)
  else if Rlt_dec x 0 then
    (if Rle_dec 0 y then atan (y / x) + PI else atan (y / x) - PI)
  else if Rlt_dec 0 y then PI / 2
  else if Rlt_dec y 0 then - (PI / 2)
  else 0.

(** [x * y] on IEEE values, with an infinity scaled by a finite [a]. *)
Definition inf_scale (a : R) (pos : bool) : num :=
  if Req_dec_T a 0 then NaN
  else if Rlt_dec 0 a then (if pos then PInf else NInf)
  else (if pos then NInf else PInf).

Definition js_mul (x y : num) : num :=
  match x, y with
  | NaN, _ | _, NaN => NaN
  | Fin a, Fin b => Fin (a * b)
  | Fin a, PInf | PInf, Fin a => inf_scale a true
  | Fin a, NInf | NInf, Fin a => inf_scale a false
  | PInf, PInf | NInf, NInf => PInf
  | PInf, NInf | NInf, PInf => NInf
  end.

(** [x / y] on IEEE values ([+0] stands for every zero). *)
Definition js_div (x y : num) : num :=
  match x, y with
  | NaN, _ | _, NaN => NaN
  | Fin a, Fin b =>
      if Req_dec_T b 0 then inf_scale a true else Fin (a / b)
  | Fin _, (PInf | NInf) => Fin 0
  | PInf, Fin b => if Rle_dec 0 b then PInf else NInf
  | NInf, Fin b => if Rle_dec 0 b then NInf else PInf
  | (PInf | NInf), (PInf | NInf) => NaN
  end.

(** [x < y] and [x <= y]: false as soon as one side is NaN. *)
Definition js_lt (x y : num) : bool :=
  match x, y with
  | NaN, _ | _, NaN => false
  | Fin a, Fin b => if Rlt_dec a b then true else false
  | NInf, NInf | PInf, PInf => false
  | NInf, _ => true
  | _, PInf => true
  | _, _ => false
  end.

Definition js_le (x y : num) : bool :=
  match x, y with
  | NaN, _ | _, NaN => false
  | Fin a, Fin b => if Rle_dec a b then true else false
  | NInf, _ => true
  | _, PInf => true
  | _, _ => false
  end.

Definition js_gt (x y : num) : bool := js_lt y x.

(** [Math.round(x)]: the integer [floor(x + 0.5)]. *)
Definition js_round (x : num) : num :=
  match x with
  | Fin a => Fin (IZR (Int_part (a + / 2)))
  | other => other
  end.

(** ** [calculateDistance] (haversine, lines 19-29 and 247-258) *)

Definition earth_R : R := 6371000.

(** Second version (lines 247-258), with [** 2].  The haversine is
    computed in exact real arithmetic: [Math.sqrt(1 - a)] is NaN only when
    the exact [a] exceeds 1, while the code's floating point [a] may round
    above 1 for nearly antipodal valid positions; such cases are not
    represented. *)
Definition calculateDistance (lat1 lon1 lat2 lon2 : R) : num :=
  let dLat := (lat2 - lat1) * PI / 180 in
  let dLon := (lon2 - lon1) * PI / 180 in
  let a := sin (dLat / 2) ^ 2 +
           cos (lat1 * PI / 180) * cos (lat2 * PI / 180) *
           sin (dLon / 2) ^ 2 in
  match js_sqrt a, js_sqrt (1 - a) with
  | Fin y, Fin x => Fin (earth_R * (2 * atan2 y x))
  | _, _ => NaN
  end.

(** First version (lines 19-29), with products instead of [** 2]. *)
Definition calculateDistance_v1 (lat1 lon1 lat2 lon2 : R) : num :=
  let dLat := (lat2 - lat1) * PI / 180 in
  let dLon := (lon2 - lon1) * PI / 180 in
  let a := sin (dLat / 2) * sin (dLat / 2) +
           cos (lat1 * PI / 180) * cos (lat2 * PI / 180) *
           sin (dLon / 2) * sin (dLon / 2) in
  match js_sqrt a, js_sqrt (1 - a) with
  | Fin y, Fin x => Fin (earth_R * (2 * atan2 y x))
  | _, _ => NaN
  end.

(** ** Points of interest and alerts *)

(** A point as fetched from [/api/points]: [{name, type, lat, lng}]. *)
Record Point : Type := mkPoint {
  p_name : string;
  p_type : string;
  p_lat : R;
  p_lng : R
}.

(** The object passed to [onProximityAlert]: [{type, name, distance}]. *)
Record Alert : Type := mkAlert {
  a_type : string;
  a_name : string;
  a_distance : num
}.

(** Distance from the user to a point, as both loops compute it. *)
Definition dist_to (userLat userLng : R) (p : Point) : num :=
  calculateDistance userLat userLng (p_lat p) (p_lng p).

Definition dist_to_v1 (userLat userLng : R) (p : Point) : num :=
  calculateDistance_v1 userLat userLng (p_lat p) (p_lng p).

(** ** First version: [checkProximity] (lines 31-43)

    The calls to [onProximityAlert] are returned as a list. *)
Fixpoint checkProximity (points : list Point) (userLat userLng : R)
  : list Alert :=
  match points with
  | [] => []
  | point :: rest =>
      let distance := dist_to_v1 userLat userLng point in
      if js_le distance (Fin 100) then
        [mkAlert (p_type point) (p_name point) (js_round distance)]
      else checkProximity rest userLat userLng
  end.

(** ** Second version: [checkProximityAndSpeed] (lines 260-291) *)

(** The [for] loop of lines 265-271 with its two accumulators
    [nearestPoint] (the point with its [distance]) and [minDistance]. *)
Fixpoint nearest_loop (userLat userLng : R) (points : list Point)
    (nearestPoint : option (Point * num)) (minDistance : num)
  : option (Point * num) * num :=
  match points with
  | [] => (nearestPoint, minDistance)
  | point :: rest =>
      let distance := dist_to userLat userLng point in
      if (js_le distance (Fin 10) && js_lt distance minDistance)%bool
      then nearest_loop userLat userLng rest (Some (point, distance)) distance
      else nearest_loop userLat userLng rest nearestPoint minDistance
  end.

Definition nearestPoint (userLat userLng : R) (points : list Point)
  : option (Point * num) :=
  fst (nearest_loop userLat userLng points None PInf).

Section Speed.

(** Number-to-string conversions of the alert message:
    [userSpeed.toFixed(1)] and the template conversion of [speedLimit]. *)
Variable toFixed1 : num -> string.
Variable limitToString : R -> string.

Definition speed_alert_name (userSpeed : num) (speedLimit : R)
    (name : string) : string :=
  ("⚠️ SLOW DOWN! Speed: " ++ toFixed1 userSpeed ++ " km/h (Max: "
   ++ limitToString speedLimit ++ " km/h) near " ++ name)%string.

Definition checkProximityAndSpeed (points : list Point) (speedLimit : R)
    (userLat userLng : R) (userSpeed : num) : list Alert :=
  match nearestPoint userLat userLng points with
  | None => []
  | Some (point, distance) =>
      if js_gt userSpeed (Fin speedLimit) then
        [mkAlert "Speed Alert"
           (speed_alert_name userSpeed speedLimit (p_name point))
           (js_round distance)]
      else
        [mkAlert (p_type point) (p_name point) (js_round distance)]
  end.

End Speed.

(** ** Speed estimation (lines 305-318)

    [lastPosition] is [{lat, lng, time}] with [time] a [Date.now()] reading
    in milliseconds.  The callback reads the clock twice: [now1] at line 313
    (only when there is a previous position) and [now2] at line 318. *)
Record LastPos : Type := mkLastPos {
  lp_lat : R;
  lp_lng : R;
  lp_time : Z
}.

Definition speed_step (lastPosition : option LastPos) (lat lng : R)
    (now1 now2 : Z) : num * option LastPos :=
  let userSpeed :=
    match lastPosition with
    | None => Fin 0
    | Some lp =>
        let distance := calculateDistance (lp_lat lp) (lp_lng lp) lat lng in
        let timeDiff := IZR (now1 - lp_time lp) / 1000 in
        js_mul (js_div distance (Fin timeDiff)) (Fin (36 / 10))
    end in
  (userSpeed, Some (mkLastPos lat lng now2)).

(** One position reported by [watchPosition], with the two clock readings. *)
Record PosFix : Type := mkPosFix {
  fx_lat : R;
  fx_lng : R;
  fx_now1 : Z;
  fx_now2 : Z
}.

(** The speeds computed for a sequence of callbacks. *)
Fixpoint speed_run (lastPosition : option LastPos) (fixes : list PosFix)
  : list num :=
  match fixes with
  | [] => []
  | f :: rest =>
      let (s, st) := speed_step lastPosition (fx_lat f) (fx_lng f)
                       (fx_now1 f) (fx_now2 f) in
      s :: speed_run st rest
  end.

(** ** The [watchPosition] callback of the second version (lines 300-323)

    It returns the text given to [onSpeedUpdate], the new [lastPosition]
    and the alerts raised; [setUserLocation] and [map.setView] only draw. *)
Definition on_position (toFixed1 : num -> string)
    (limitToString : R -> string) (points : list Point) (speedLimit : R)
    (lastPosition : option LastPos) (lat lng : R) (now1 now2 : Z)
  : string * option LastPos * list Alert :=
  let (userSpeed, st) := speed_step lastPosition lat lng now1 now2 in
  (toFixed1 userSpeed, st,
   checkProximityAndSpeed toFixed1 limitToString points speedLimit
     lat lng userSpeed).

(** ** The alert banner of [App] (lines 125-128 and 369-372)

    [alert] is the state shown; [timers] are the due times (ms) of the
    pending [setTimeout(() => setAlert(null), 5000)] callbacks.  A timer
    fires at its due time, and timers due at a time fire before an alert
    raised at that same time. *)
Record Banner : Type := mkBanner {
  alert : option Alert;
  timers : list Z
}.

Definition handleProximityAlert (now : Z) (alertInfo : Alert) (b : Banner)
  : Banner :=
  mkBanner (Some alertInfo) (timers b ++ [(now + 5000)%Z]).

(** Run every timer due at time [T]: each one calls [setAlert(null)]. *)
Definition fire_timers (T : Z) (b : Banner) : Banner :=
  match filter (fun d => (d <=? T)%Z) (timers b) with
  | [] => b
  | _ => mkBanner None (filter (fun d => negb (d <=? T)%Z) (timers b))
  end.

(** Background colour of the banner (lines 388-389). *)
Definition banner_color (a : Alert) : string :=
  if String.eqb (a_type a) "CCTV" then "#ffeb3b"
  else if String.eqb (a_type a) "Speed Alert" then "#f44336"
  else "#ff9800".

(** Distance part of the banner text (line 398), with the template's
    number-to-string conversion as a parameter. *)
Definition banner_distance_text (numToString : num -> string) (a : Alert)
  : string :=
  if js_gt (a_distance a) (Fin 0)
  then ("(" ++ numToString (a_distance a) ++ "m away)")%string
  else ""%string.

(** ** Loading the points (lines 355-367)

    The outcome of [fetch('/api/points')]: a rejected request, or a response
    with its [ok] flag and its body parsed as a list of points ([None] when
    [res.json()] fails). *)
Inductive FetchOutcome : Type :=
| FetchRejected
| FetchResponse (ok : bool) (body : option (list Point)).

(** The points used when the request fails (lines 360-365). *)
Definition default_points : list Point :=
  [mkPoint "Hostel Camera-1" "CCTV" 30.8627650 75.8607660;
   mkPoint "Accidental Prone Area" "Speed Breaker" 30.8611150 75.8610131;
   mkPoint "Lipton Camera-2" "CCTV" 30.8600959 75.8610409;
   mkPoint "MBA Block Construction Area" "Speed Breaker" 30.8601031 75.8603610].

Definition load_points (r : FetchOutcome) : list Point :=
  match r with
  | FetchResponse true (Some data) => data
  | _ => default_points
  end.

(** ** [initializeData] of the backend server (src/unnamed/part_000,
    lines 36-51), for a database that answers: the collection is a list of
    documents, [countDocuments] its length and [insertMany] an append.  The
    second component is the message logged. *)
Definition initializeData (collection sampleData : list Point)
  : list Point * string :=
  if Nat.eqb (length collection) 0
  then (collection ++ sampleData, "Sample data inserted successfully"%string)
  else (collection, "Data already exists, skipping initialization"%string).

(** ** Properties of the JavaScript number operations *)

Lemma js_le_Fin (a b : R) : js_le (Fin a) (Fin b) = true <-> a <= b.
Proof.
  simpl; destruct (Rle_dec a b); split; intro H; auto; discriminate.
Qed.

Lemma js_lt_Fin (a b : R) : js_lt (Fin a) (Fin b) = true <-> a < b.
Proof.
  simpl; destruct (Rlt_dec a b); split; intro H; auto; discriminate.
Qed.

Lemma js_sqrt_nonneg (x : R) : 0 <= x -> js_sqrt x = Fin (sqrt x).
Proof.
  intro H; unfold js_sqrt; destruct (Rlt_dec x 0); [lra | reflexivity].
Qed.

Lemma atan_nonneg (x : R) : 0 <= x -> 0 <= atan x.
Proof.
  intro H; destruct (Req_dec_T x 0) as [-> | Hx].
  - rewrite atan_0; lra.
  - rewrite <- atan_0; left; apply atan_increasing; lra.
Qed.

Lemma atan2_nonneg (y x : R) : 0 <= y -> 0 <= x -> 0 <= atan2 y x.
Proof.
  intros Hy Hx; unfold atan2.
  destruct (Rlt_dec 0 x).
  - apply atan_nonneg; unfold Rdiv.
    apply Rmult_le_pos; [lra | left; apply Rinv_0_lt_compat; lra].
  - destruct (Rlt_dec x 0); [lra |].
    destruct (Rlt_dec 0 y); [pose proof PI_RGT_0; lra |].
    destruct (Rlt_dec y 0); lra.
Qed.

(** ** Properties of [calculateDistance] *)

(** The haversine term [a] of line 251. *)
Definition hav (lat1 lon1 lat2 lon2 : R) : R :=
  sin ((lat2 - lat1) * PI / 180 / 2) ^ 2 +
  cos (lat1 * PI / 180) * cos (lat2 * PI / 180) *
  sin ((lon2 - lon1) * PI / 180 / 2) ^ 2.

Lemma calculateDistance_hav (lat1 lon1 lat2 lon2 : R) :
  calculateDistance lat1 lon1 lat2 lon2 =
  match js_sqrt (hav lat1 lon1 lat2 lon2),
        js_sqrt (1 - hav lat1 lon1 lat2 lon2) with
  | Fin y, Fin x => Fin (earth_R * (2 * atan2 y x))
  | _, _ => NaN
  end.
Proof. reflexivity. Qed.

Lemma calculateDistance_v1_same_as_v2 (lat1 lon1 lat2 lon2 : R) :
  calculateDistance_v1 lat1 lon1 lat2 lon2 =
  calculateDistance lat1 lon1 lat2 lon2.
Proof.
  unfold calculateDistance_v1, calculateDistance.
  replace (sin ((lat2 - lat1) * PI / 180 / 2) *
           sin ((lat2 - lat1) * PI / 180 / 2) +
           cos (lat1 * PI / 180) * cos (lat2 * PI / 180) *
           sin ((lon2 - lon1) * PI / 180 / 2) *
           sin ((lon2 - lon1) * PI / 180 / 2))
    with (sin ((lat2 - lat1) * PI / 180 / 2) ^ 2 +
          cos (lat1 * PI / 180) * cos (lat2 * PI / 180) *
          sin ((lon2 - lon1) * PI / 180 / 2) ^ 2) by ring.
  reflexivity.
Qed.

(** The result is a finite number or NaN, never an infinity. *)
Lemma calculateDistance_fin_or_nan (lat1 lon1 lat2 lon2 : R) :
  (exists r, calculateDistance lat1 lon1 lat2 lon2 = Fin r) \/
  calculateDistance lat1 lon1 lat2 lon2 = NaN.
Proof.
  rewrite calculateDistance_hav.
  destruct (js_sqrt (hav lat1 lon1 lat2 lon2)); eauto;
  destruct (js_sqrt (1 - hav lat1 lon1 lat2 lon2)); eauto.
Qed.

Lemma hav_same (lat lng : R) : hav lat lng lat lng = 0.
Proof.
  unfold hav; rewrite !Rminus_diag.
  replace (0 * PI / 180 / 2) with 0 by field.
  rewrite sin_0; ring.
Qed.

Lemma calculateDistance_same (lat lng : R) :
  calculateDistance lat lng lat lng = Fin 0.
Proof.
  rewrite calculateDistance_hav, hav_same, Rminus_0_r.
  rewrite !js_sqrt_nonneg by lra.
  rewrite sqrt_0, sqrt_1.
  unfold atan2; destruct (Rlt_dec 0 1); [| lra].
  replace (0 / 1) with 0 by field; rewrite atan_0.
  f_equal; ring.
Qed.

(** A latitude in degrees, as a valid [Coordinate] has it. *)
Definition valid_lat (lat : R) : Prop := -90 <= lat <= 90.

Lemma cos_lat_nonneg (lat : R) : valid_lat lat -> 0 <= cos (lat * PI / 180).
Proof.
  intros [H1 H2]; pose proof PI_RGT_0.
  apply cos_ge_0.
  - replace (- (PI / 2)) with (-90 * PI / 180) by field.
    apply Rmult_le_compat_r; [lra |]; apply Rmult_le_compat_r; lra.
  - replace (PI / 2) with (90 * PI / 180) by field.
    apply Rmult_le_compat_r; [lra |]; apply Rmult_le_compat_r; lra.
Qed.

Lemma hav_bounds (lat1 lon1 lat2 lon2 : R) :
  valid_lat lat1 -> valid_lat lat2 ->
  0 <= hav lat1 lon1 lat2 lon2 <= 1.
Proof.
  intros V1 V2; unfold hav.
  pose proof (cos_lat_nonneg _ V1) as C1.
  pose proof (cos_lat_nonneg _ V2) as C2.
  set (p1 := lat1 * PI / 180) in *.
  set (p2 := lat2 * PI / 180) in *.
  set (u := (lat2 - lat1) * PI / 180 / 2).
  set (v := (lon2 - lon1) * PI / 180 / 2).
  assert (Hu : 2 * u = p2 - p1) by (unfold u, p1, p2; field).
  assert (Hc : cos (2 * u) = 1 - 2 * sin u * sin u) by apply cos_2a_sin.
  rewrite Hu, cos_minus in Hc.
  pose proof (cos_plus p2 p1) as Hp.
  pose proof (COS_bound (p2 + p1)) as Hb.
  pose proof (sin2_cos2 v) as Hv.
  unfold Rsqr in Hv.
  assert (0 <= cos p1 * cos p2) by (apply Rmult_le_pos; auto).
  assert (0 <= sin v * sin v) by nra.
  assert (0 <= cos v * cos v) by nra.
  split; nra.
Qed.

Lemma hav_sym (lat1 lon1 lat2 lon2 : R) :
  hav lat1 lon1 lat2 lon2 = hav lat2 lon2 lat1 lon1.
Proof.
  unfold hav.
  replace ((lat1 - lat2) * PI / 180 / 2)
    with (- ((lat2 - lat1) * PI / 180 / 2)) by field.
  replace ((lon1 - lon2) * PI / 180 / 2)
    with (- ((lon2 - lon1) * PI / 180 / 2)) by field.
  rewrite !sin_neg; ring.
Qed.

(** ** The nearest-point loop *)

(** The point a loop state remembers, with its finite distance. *)
Definition loop_inv (nearest : option (Point * num)) (minD : num) : Prop :=
  (nearest = None /\ minD = PInf) \/
  (exists p r, nearest = Some (p, Fin r) /\ minD = Fin r /\ r <= 10).

(** What the loop returns from a state satisfying [loop_inv]: the state
    itself when no point of [points] is in range and strictly closer, or
    else the first in-range point of minimal distance, strictly below
    [minD]. *)
Lemma nearest_loop_spec (userLat userLng : R) (points : list Point) :
  forall nearest minD, loop_inv nearest minD ->
  (fst (nearest_loop userLat userLng points nearest minD) = nearest /\
   forall q rq, In q points -> dist_to userLat userLng q = Fin rq ->
     rq <= 10 -> js_lt (Fin rq) minD = false) \/
  (exists i p r,
     nth_error points i = Some p /\
     fst (nearest_loop userLat userLng points nearest minD) = Some (p, Fin r) /\
     dist_to userLat userLng p = Fin r /\ r <= 10 /\
     js_lt (Fin r) minD = true /\
     (forall j q rq, nth_error points j = Some q ->
        dist_to userLat userLng q = Fin rq -> rq <= 10 -> r <= rq) /\
     (forall j q rq, (j < i)%nat -> nth_error points j = Some q ->
        dist_to userLat userLng q = Fin rq -> rq <= 10 -> r < rq)).
Proof.
  induction points as [| x rest IH]; intros nearest minD Hinv.
  - left; split; [reflexivity | intros q rq []].
  - simpl.
    destruct (calculateDistance_fin_or_nan userLat userLng (p_lat x) (p_lng x))
      as [[rx Hx] | Hx]; fold (dist_to userLat userLng x) in Hx; rewrite Hx.
    + destruct (js_le (Fin rx) (Fin 10)) eqn:Hle;
      [destruct (js_lt (Fin rx) minD) eqn:Hlt |]; simpl.
      * (* [x] becomes the nearest point *)
        apply js_le_Fin in Hle.
        assert (Hinv' : loop_inv (Some (x, Fin rx)) (Fin rx))
          by (right; eauto).
        right.
        destruct (IH _ _ Hinv') as [[Hres Hnone] | (i & p & r & Hi & Hres & Hd & Hr & Hltr & Hmin & Hfirst)].
        -- exists 0%nat, x, rx; repeat split; auto.
           intros [| j] q rq Hj Hq Hrq; simpl in Hj.
           ++ inversion Hj; subst; rewrite Hx in Hq; inversion Hq; lra.
           ++ pose proof (Hnone q rq (nth_error_In _ _ Hj) Hq Hrq) as H.
              destruct (Rlt_dec rq rx) as [Hc | Hc].
              ** apply js_lt_Fin in Hc; congruence.
              ** lra.
           ++ intros j q rq Hj; lia.
        -- apply js_lt_Fin in Hltr.
           exists (S i), p, r; repeat split; auto.
           ++ destruct minD as [m | | |]; simpl in Hlt |- *; auto.
              apply js_lt_Fin in Hlt; apply js_lt_Fin; lra.
           ++ intros [| j] q rq Hj Hq Hrq; simpl in Hj.
              ** inversion Hj; subst; rewrite Hx in Hq; inversion Hq; lra.
              ** eauto.
           ++ intros [| j] q rq Hji Hj Hq Hrq; simpl in Hj.
              ** inversion Hj; subst; rewrite Hx in Hq; inversion Hq; lra.
              ** apply (Hfirst j q rq); auto; lia.
      * (* in range but not strictly closer *)
        destruct (IH _ _ Hinv) as [[Hres Hnone] | (i & p & r & Hi & Hres & Hd & Hr & Hltr & Hmin & Hfirst)].
        -- left; split; auto.
           intros q rq [<- | Hq] Hd Hrq; eauto.
           rewrite Hx in Hd; inversion Hd; subst; auto.
        -- right; exists (S i), p, r; repeat split; auto.
           ++ intros [| j] q rq Hj Hq Hrq; simpl in Hj; eauto.
              inversion Hj; subst; rewrite Hx in Hq; inversion Hq; subst.
              destruct minD as [m | | |]; simpl in Hlt, Hltr; try discriminate.
              destruct (Rlt_dec rq m); [discriminate |].
              destruct (Rlt_dec r m); [lra | discriminate].
           ++ intros [| j] q rq Hji Hj Hq Hrq; simpl in Hj.
              ** inversion Hj; subst; rewrite Hx in Hq; inversion Hq; subst.
                 destruct minD as [m | | |]; simpl in Hlt, Hltr; try discriminate.
                 destruct (Rlt_dec rq m); [discriminate |].
                 destruct (Rlt_dec r m); [lra | discriminate].
              ** apply (Hfirst j q rq); auto; lia.
      * (* out of range *)
        assert (Hout : ~ rx <= 10)
          by (intro H; apply js_le_Fin in H; congruence).
        destruct (IH _ _ Hinv) as [[Hres Hnone] | (i & p & r & Hi & Hres & Hd & Hr & Hltr & Hmin & Hfirst)].
        -- left; split; auto.
           intros q rq [<- | Hq] Hd Hrq; eauto.
           rewrite Hx in Hd; inversion Hd; subst; lra.
        -- right; exists (S i), p, r; repeat split; auto.
           ++ intros [| j] q rq Hj Hq Hrq; simpl in Hj; eauto.
              inversion Hj; subst; rewrite Hx in Hq; inversion Hq; subst; lra.
           ++ intros [| j] q rq Hji Hj Hq Hrq; simpl in Hj.
              ** inversion Hj; subst; rewrite Hx in Hq; inversion Hq; subst; lra.
              ** apply (Hfirst j q rq); auto; lia.
    + (* NaN distance: the point is skipped *)
      simpl.
      destruct (IH _ _ Hinv) as [[Hres Hnone] | (i & p & r & Hi & Hres & Hd & Hr & Hltr & Hmin & Hfirst)].
      * left; split; auto.
        intros q rq [<- | Hq] Hd Hrq; eauto; congruence.
      * right; exists (S i), p, r; repeat split; auto.
        -- intros [| j] q rq Hj Hq Hrq; simpl in Hj; eauto.
           inversion Hj; subst; congruence.
        -- intros [| j] q rq Hji Hj Hq Hrq; simpl in Hj.
           ++ inversion Hj; subst; congruence.
           ++ apply (Hfirst j q rq); auto; lia.
Qed.

Lemma nearestPoint_distance (userLat userLng : R) (points : list Point)
    (p : Point) (d : num) :
  nearestPoint userLat userLng points = Some (p, d) ->
  exists r, d = Fin r /\ dist_to userLat userLng p = Fin r /\ r <= 10.
Proof.
  unfold nearestPoint; intro H.
  assert (Hinv : loop_inv None PInf) by (left; auto).
  destruct (nearest_loop_spec userLat userLng points None PInf Hinv)
    as [[Hres _] | (i & q & r & _ & Hres & Hd & Hr & _)].
  - congruence.
  - rewrite Hres in H; inversion H; subst; eauto.
Qed.

Lemma nearestPoint_at_point (p : Point) :
  nearestPoint (p_lat p) (p_lng p) [p] = Some (p, Fin 0).
Proof.
  unfold nearestPoint; simpl; unfold dist_to.
  rewrite calculateDistance_same; simpl.
  destruct (Rle_dec 0 10); [reflexivity | lra].
Qed.

(** [Math.round] of a finite distance below an integer radius stays below
    the radius. *)
Lemma js_round_le (r : R) (k : Z) :
  r <= IZR k -> exists z, js_round (Fin r) = Fin (IZR z) /\ IZR z <= IZR k.
Proof.
  intro H; exists (Int_part (r + / 2)); split; [reflexivity |].
  destruct (base_Int_part (r + / 2)) as [H1 _].
  apply IZR_le.
  destruct (Z_le_gt_dec (Int_part (r + / 2)) k) as [Hz | Hz]; auto.
  exfalso; assert (Hz' : (k + 1 <= Int_part (r + / 2))%Z) by lia.
  apply IZR_le in Hz'; rewrite plus_IZR in Hz'; lra.
Qed.

(** Every alert of [checkProximity] is about a point of the list whose
    distance is finite and at most 100. *)
Lemma checkProximity_alert (points : list Point) (userLat userLng : R)
    (a : Alert) :
  In a (checkProximity points userLat userLng) ->
  exists p r, In p points /\ dist_to_v1 userLat userLng p = Fin r /\
    r <= 100 /\ a = mkAlert (p_type p) (p_name p) (js_round (Fin r)).
Proof.
  induction points as [| x rest IH]; simpl; [intros [] |].
  destruct (js_le (dist_to_v1 userLat userLng x) (Fin 100)) eqn:Hle.
  - intros [<- | []].
    assert (Hv : dist_to_v1 userLat userLng x = dist_to userLat userLng x)
      by apply calculateDistance_v1_same_as_v2.
    rewrite Hv in Hle.
    destruct (calculateDistance_fin_or_nan userLat userLng (p_lat x) (p_lng x))
      as [[rx Hx] | Hx]; fold (dist_to userLat userLng x) in Hx;
      rewrite Hx in Hle; [| discriminate].
    apply js_le_Fin in Hle; exists x, rx.
    rewrite Hv, Hx; repeat split; auto; left; reflexivity.
  - intro Ha; destruct (IH Ha) as (p & r & Hp & Hd & Hr & ->).
    exists p, r; auto.
Qed.

(** ** Claims *)

(** C1: whenever some point lies within the 10 m radius, the loop of
    [checkProximityAndSpeed] selects an in-range point [p], at some index
    [i], whose distance is minimal among the in-range points and strictly
    below that of every in-range point listed before it (so among
    equidistant points the first listed one is selected). *)
Theorem checkProximityAndSpeed_selects_nearest
    (userLat userLng : R) (points : list Point) :
  (exists q rq, In q points /\ dist_to userLat userLng q = Fin rq /\
     rq <= 10) ->
  exists i p r,
    nth_error points i = Some p /\
    nearestPoint userLat userLng points = Some (p, Fin r) /\
    dist_to userLat userLng p = Fin r /\ r <= 10 /\
    (forall j q rq, nth_error points j = Some q ->
       dist_to userLat userLng q = Fin rq -> rq <= 10 -> r <= rq) /\
    (forall j q rq, (j < i)%nat -> nth_error points j = Some q ->
       dist_to userLat userLng q = Fin rq -> rq <= 10 -> r < rq).
Proof.
  intros (q & rq & Hq & Hd & Hr).
  assert (Hinv : loop_inv None PInf) by (left; auto).
  destruct (nearest_loop_spec userLat userLng points None PInf Hinv)
    as [[_ Hnone] | (i & p & r & Hi & Hres & Hpd & Hpr & _ & Hmin & Hfirst)].
  - specialize (Hnone q rq Hq Hd Hr); discriminate.
  - exists i, p, r; unfold nearestPoint; auto 7.
Qed.

Lemma checkProximityAndSpeed_selects_nearest_witness :
  let p1 := mkPoint "Lipton Camera-2" "CCTV" 30.8600959 75.8610409 in
  let p2 := mkPoint "Lipton Camera-2 duplicate" "Speed Breaker"
              30.8600959 75.8610409 in
  (exists q rq, In q [p1; p2] /\
     dist_to (p_lat p1) (p_lng p1) q = Fin rq /\ rq <= 10) /\
  nearestPoint (p_lat p1) (p_lng p1) [p1; p2] = Some (p1, Fin 0).
Proof.
  intros p1 p2.
  assert (Hd1 : dist_to (p_lat p1) (p_lng p1) p1 = Fin 0)
    by apply calculateDistance_same.
  assert (Hd2 : dist_to (p_lat p1) (p_lng p1) p2 = Fin 0)
    by apply calculateDistance_same.
  assert (H : exists q rq, In q [p1; p2] /\
     dist_to (p_lat p1) (p_lng p1) q = Fin rq /\ rq <= 10).
  { exists p1, 0; split; [left; reflexivity |]; split; [exact Hd1 | lra]. }
  split; [exact H |].
  destruct (checkProximityAndSpeed_selects_nearest (p_lat p1) (p_lng p1)
              [p1; p2] H)
    as (i & p & r & Hi & Hres & Hpd & Hr & Hmin & Hfirst).
  destruct i as [| [| [| i]]]; simpl in Hi; try discriminate Hi;
    injection Hi as <-.
  - rewrite Hd1 in Hpd; injection Hpd as <-; exact Hres.
  - rewrite Hd2 in Hpd; injection Hpd as <-.
    assert (Hlt : 0 < 0) by (apply (Hfirst 0%nat p1 0); auto; lra).
    lra.
Defined.

(** C2: when the loop has selected a point [p], [checkProximityAndSpeed]
    calls [onProximityAlert] exactly once: with a ['Speed Alert'] when
    [userSpeed > speedLimit], and otherwise with the point's own type, its
    name and its rounded distance; both carry [Math.round] of the distance
    to [p]. *)
Theorem checkProximityAndSpeed_one_alert
    (toFixed1 : num -> string) (limitToString : R -> string)
    (points : list Point) (speedLimit userLat userLng : R)
    (userSpeed : num) (p : Point) (d : num) :
  nearestPoint userLat userLng points = Some (p, d) ->
  exists a,
    checkProximityAndSpeed toFixed1 limitToString points speedLimit
      userLat userLng userSpeed = [a] /\
    a_distance a = js_round (dist_to userLat userLng p) /\
    (js_gt userSpeed (Fin speedLimit) = true ->
       a_type a = "Speed Alert"%string /\
       a_name a = speed_alert_name toFixed1 limitToString userSpeed
                    speedLimit (p_name p)) /\
    (js_gt userSpeed (Fin speedLimit) = false ->
       a_type a = p_type p /\ a_name a = p_name p).
Proof.
  intro Hsel.
  destruct (nearestPoint_distance _ _ _ _ _ Hsel) as (r & -> & Hd & _).
  unfold checkProximityAndSpeed; rewrite Hsel, Hd.
  destruct (js_gt userSpeed (Fin speedLimit)) eqn:Hgt.
  - eexists; split; [reflexivity |]; simpl; repeat split; auto; discriminate.
  - eexists; split; [reflexivity |]; simpl; repeat split; auto; discriminate.
Qed.

Lemma checkProximityAndSpeed_one_alert_witness :
  let p := mkPoint "Lipton Camera-2" "CCTV" 30.8600959 75.8610409 in
  nearestPoint (p_lat p) (p_lng p) [p] = Some (p, Fin 0) /\
  exists a,
    checkProximityAndSpeed (fun _ => EmptyString) (fun _ => EmptyString)
      [p] 5 (p_lat p) (p_lng p) (Fin 12) = [a] /\
    a_distance a = js_round (dist_to (p_lat p) (p_lng p) p) /\
    (js_gt (Fin 12) (Fin 5) = true ->
       a_type a = "Speed Alert"%string /\
       a_name a = speed_alert_name (fun _ => EmptyString)
                    (fun _ => EmptyString) (Fin 12) 5 (p_name p)) /\
    (js_gt (Fin 12) (Fin 5) = false ->
       a_type a = p_type p /\ a_name a = p_name p).
Proof.
  intro p.
  split; [apply nearestPoint_at_point |].
  apply (checkProximityAndSpeed_one_alert _ _ [p] 5 (p_lat p) (p_lng p)
           (Fin 12) p (Fin 0)).
  apply nearestPoint_at_point.
Defined.

(** C6: with an empty list of points neither version raises an alert. *)
Theorem check_empty_points_no_alert
    (toFixed1 : num -> string) (limitToString : R -> string)
    (speedLimit userLat userLng : R) (userSpeed : num) :
  checkProximityAndSpeed toFixed1 limitToString [] speedLimit
    userLat userLng userSpeed = [] /\
  checkProximity [] userLat userLng = [].
Proof. split; reflexivity. Qed.

(** C9: [checkProximity] alerts on the first listed point whose distance is
    at most 100 and stops there: if [p], at index [i], is within range and
    no earlier point is, the only alert is the one for [p], whatever the
    distances of the later points. *)
Theorem checkProximity_first_in_range (points : list Point)
    (userLat userLng : R) (i : nat) (p : Point) :
  nth_error points i = Some p ->
  js_le (dist_to_v1 userLat userLng p) (Fin 100) = true ->
  (forall j q, (j < i)%nat -> nth_error points j = Some q ->
     js_le (dist_to_v1 userLat userLng q) (Fin 100) = false) ->
  checkProximity points userLat userLng =
    [mkAlert (p_type p) (p_name p) (js_round (dist_to_v1 userLat userLng p))].
Proof.
  revert i; induction points as [| x rest IH]; intros i Hi Hp Hbefore.
  - destruct i; discriminate.
  - destruct i as [| i]; simpl in Hi |- *.
    + inversion Hi; subst; rewrite Hp; reflexivity.
    + rewrite (Hbefore 0%nat x) by (reflexivity || lia).
      apply (IH i Hi Hp).
      intros j q Hj Hq; apply (Hbefore (S j) q); simpl; auto; lia.
Qed.

Lemma checkProximity_first_in_range_witness :
  let p := mkPoint "Library CCTV" "CCTV" 30.7340 76.7800 in
  let far := mkPoint "Main Gate Speed Breaker" "Speed Breaker" 30.7333 76.7794 in
  nth_error [p; far] 0 = Some p /\
  js_le (dist_to_v1 (p_lat p) (p_lng p) p) (Fin 100) = true /\
  (forall j q, (j < 0)%nat -> nth_error [p; far] j = Some q ->
     js_le (dist_to_v1 (p_lat p) (p_lng p) q) (Fin 100) = false) /\
  checkProximity [p; far] (p_lat p) (p_lng p) =
    [mkAlert (p_type p) (p_name p) (js_round (dist_to_v1 (p_lat p) (p_lng p) p))].
Proof.
  intros p far.
  assert (H1 : nth_error [p; far] 0 = Some p) by reflexivity.
  assert (H2 : js_le (dist_to_v1 (p_lat p) (p_lng p) p) (Fin 100) = true).
  { unfold dist_to_v1; rewrite calculateDistance_v1_same_as_v2,
      calculateDistance_same; apply js_le_Fin; lra. }
  assert (H3 : forall j q, (j < 0)%nat -> nth_error [p; far] j = Some q ->
     js_le (dist_to_v1 (p_lat p) (p_lng p) q) (Fin 100) = false)
    by (intros j q Hj; lia).
  split; [exact H1 |]; split; [exact H2 |]; split; [exact H3 |].
  apply (checkProximity_first_in_range [p; far] (p_lat p) (p_lng p) 0 p
           H1 H2 H3).
Defined.

(** C10: every alert carries [Math.round] of the distance from the user to
    the alerted point, an integer at most the radius of its version: 10 for
    [checkProximityAndSpeed] (whose alerted point is the selected one) and
    100 for [checkProximity] (whose alert is built from the type, name and
    distance of the alerted point). *)
Theorem alert_distance_rounded_within_radius
    (toFixed1 : num -> string) (limitToString : R -> string)
    (points : list Point) (speedLimit userLat userLng : R)
    (userSpeed : num) :
  Forall (fun a => exists p z,
      nearestPoint userLat userLng points =
        Some (p, dist_to userLat userLng p) /\
      a_distance a = js_round (dist_to userLat userLng p) /\
      a_distance a = Fin (IZR z) /\ IZR z <= 10)
    (checkProximityAndSpeed toFixed1 limitToString points speedLimit
       userLat userLng userSpeed) /\
  Forall (fun a => exists p z,
      In p points /\
      a = mkAlert (p_type p) (p_name p)
            (js_round (dist_to_v1 userLat userLng p)) /\
      a_distance a = js_round (dist_to_v1 userLat userLng p) /\
      a_distance a = Fin (IZR z) /\ IZR z <= 100)
    (checkProximity points userLat userLng).
Proof.
  split.
  - unfold checkProximityAndSpeed.
    destruct (nearestPoint userLat userLng points) as [[p d] |] eqn:Hsel;
      [| constructor].
    destruct (nearestPoint_distance _ _ _ _ _ Hsel) as (r & -> & Hd & Hr).
    destruct (js_round_le r 10 Hr) as (z & Hz & Hzr).
    destruct (js_gt userSpeed (Fin speedLimit));
      constructor; try constructor; exists p, z; simpl;
      rewrite Hd, <- Hsel; auto.
  - apply Forall_forall; intros a Ha.
    destruct (checkProximity_alert _ _ _ _ Ha) as (p & r & Hp & Hd & Hr & ->).
    destruct (js_round_le r 100 Hr) as (z & Hz & Hzr).
    exists p, z; simpl; rewrite Hd; auto.
Qed.

(** C4: on the first position ([lastPosition] is [null]) the speed is
    exactly 0, a finite number, and the position is stored. *)
Theorem speed_step_first_fix (lat lng : R) (now1 now2 : Z) :
  speed_step None lat lng now1 now2 = (Fin 0, Some (mkLastPos lat lng now2)).
Proof. reflexivity. Qed.

(** C8: whatever the speed computed, [lastPosition] becomes the new
    position, stamped with the clock reading of line 318. *)
Theorem speed_step_stores_position (lastPosition : option LastPos)
    (lat lng : R) (now1 now2 : Z) :
  snd (speed_step lastPosition lat lng now1 now2) =
    Some (mkLastPos lat lng now2).
Proof. destruct lastPosition; reflexivity. Qed.

(** Two callbacks at the same position within the same millisecond. *)
Definition same_ms_fixes : list PosFix :=
  [mkPosFix 0 0 1000 1000; mkPosFix 0 0 1000 1000].

Lemma speed_step_zero_elapsed_same_position :
  speed_step (Some (mkLastPos 0 0 1000)) 0 0 1000 1000 =
    (NaN, Some (mkLastPos 0 0 1000)).
Proof.
  unfold speed_step; simpl lp_lat; simpl lp_lng; simpl lp_time.
  rewrite calculateDistance_same.
  replace (IZR (1000 - 1000) / 1000) with 0
    by (rewrite Z.sub_diag; field).
  unfold js_div, inf_scale.
  destruct (Req_dec_T 0 0) as [_ | H]; [| lra].
  reflexivity.
Qed.

(** C3: with an elapsed time of zero the code divides by zero: the second of
    two callbacks at the same position in the same millisecond computes
    [0 / 0 * 3.6], which is NaN, not 0 (the position is still stored). *)
Theorem speed_step_zero_elapsed_is_nan :
  speed_step (Some (mkLastPos 0 0 1000)) 0 0 1000 1000 =
    (NaN, Some (mkLastPos 0 0 1000)) /\
  fst (speed_step (Some (mkLastPos 0 0 1000)) 0 0 1000 1000) <> Fin 0.
Proof.
  rewrite speed_step_zero_elapsed_same_position; split;
    [reflexivity | discriminate].
Qed.

(** C5: the speeds of [same_ms_fixes] are 0 and NaN, and NaN is not
    [>= 0]. *)
Theorem speed_run_not_nonneg :
  speed_run None same_ms_fixes = [Fin 0; NaN] /\
  js_le (Fin 0) NaN = false.
Proof.
  split; [| reflexivity].
  unfold same_ms_fixes; cbn -[speed_step].
  change (speed_step None 0 0 1000 1000)
    with (Fin 0, Some (mkLastPos 0 0 1000)).
  cbn -[speed_step].
  rewrite speed_step_zero_elapsed_same_position; reflexivity.
Qed.

(** ** Further properties of the tracker, the banner and the backend *)

Lemma calculateDistance_fin_nonneg (lat1 lon1 lat2 lon2 r : R) :
  calculateDistance lat1 lon1 lat2 lon2 = Fin r -> 0 <= r.
Proof.
  rewrite calculateDistance_hav; unfold js_sqrt.
  destruct (Rlt_dec (hav lat1 lon1 lat2 lon2) 0); [discriminate |].
  destruct (Rlt_dec (1 - hav lat1 lon1 lat2 lon2) 0); [discriminate |].
  intro H; inversion H; subst.
  pose proof (atan2_nonneg _ _ (sqrt_pos (hav lat1 lon1 lat2 lon2))
                (sqrt_pos (1 - hav lat1 lon1 lat2 lon2))).
  unfold earth_R; lra.
Qed.

Lemma atan2_pos (y x : R) : 0 < y -> 0 <= x -> 0 < atan2 y x.
Proof.
  intros Hy Hx; unfold atan2.
  destruct (Rlt_dec 0 x).
  - rewrite <- atan_0; apply atan_increasing.
    unfold Rdiv; apply Rmult_lt_0_compat; [lra | apply Rinv_0_lt_compat; lra].
  - destruct (Rlt_dec x 0); [lra |].
    destruct (Rlt_dec 0 y); [pose proof PI_RGT_0; lra | lra].
Qed.

(** The distance between the positions (0, 0) and (1, 0). *)
Definition one_degree_distance : R :=
  earth_R * (2 * atan2 (sqrt (hav 0 0 1 0)) (sqrt (1 - hav 0 0 1 0))).

Lemma hav_one_degree : 0 < hav 0 0 1 0 <= 1.
Proof.
  split.
  - unfold hav.
    replace ((0 - 0) * PI / 180 / 2) with 0 by field; rewrite sin_0.
    assert (0 < sin ((1 - 0) * PI / 180 / 2)).
    { pose proof PI_RGT_0; apply sin_gt_0; lra. }
    nra.
  - apply hav_bounds; unfold valid_lat; lra.
Qed.

Lemma calculateDistance_one_degree :
  calculateDistance 0 0 1 0 = Fin one_degree_distance /\
  0 < one_degree_distance.
Proof.
  pose proof hav_one_degree as [H0 H1].
  split.
  - rewrite calculateDistance_hav, !js_sqrt_nonneg by lra; reflexivity.
  - unfold one_degree_distance, earth_R.
    pose proof (atan2_pos _ _ (sqrt_lt_R0 _ H0) (sqrt_pos (1 - hav 0 0 1 0))).
    lra.
Qed.

Lemma nearestPoint_none_iff (userLat userLng : R) (points : list Point) :
  nearestPoint userLat userLng points = None <->
  (forall q rq, In q points -> dist_to userLat userLng q = Fin rq -> 10 < rq).
Proof.
  assert (Hinv : loop_inv None PInf) by (left; auto).
  unfold nearestPoint.
  destruct (nearest_loop_spec userLat userLng points None PInf Hinv)
    as [[Hres Hnone] | (i & p & r & Hi & Hres & Hpd & Hpr & _ & Hmin & _)];
    rewrite Hres; split; intro H; auto.
  - intros q rq Hq Hd; destruct (Rle_dec rq 10) as [Hle | Hle]; [| lra].
    specialize (Hnone q rq Hq Hd Hle); discriminate.
  - discriminate.
  - exfalso; pose proof (H p r (nth_error_In _ _ Hi) Hpd); lra.
Qed.

(** X1: on the first callback of a session (no [lastPosition]) the speed
    is 0, so with a non-negative speed limit no ['Speed Alert'] is raised:
    the only possible alert is the proximity alert of the selected point. *)
Theorem on_position_first_fix_no_speed_alert
    (toFixed1 : num -> string) (limitToString : R -> string)
    (points : list Point) (speedLimit lat lng : R) (now1 now2 : Z) :
  0 <= speedLimit ->
  on_position toFixed1 limitToString points speedLimit None lat lng now1 now2
  = (toFixed1 (Fin 0), Some (mkLastPos lat lng now2),
     match nearestPoint lat lng points with
     | None => []
     | Some (p, d) => [mkAlert (p_type p) (p_name p) (js_round d)]
     end).
Proof.
  intro Hl; unfold on_position, speed_step, checkProximityAndSpeed; simpl.
  destruct (nearestPoint lat lng points) as [[p d] |]; [| reflexivity].
  unfold js_gt; simpl; destruct (Rlt_dec speedLimit 0); [lra | reflexivity].
Qed.

Lemma on_position_first_fix_no_speed_alert_witness :
  0 <= 5 /\
  on_position (fun _ => EmptyString) (fun _ => EmptyString) default_points 5
    None 30.8600959 75.8610409 0 0
  = ((fun _ => EmptyString) (Fin 0), Some (mkLastPos 30.8600959 75.8610409 0),
     match nearestPoint 30.8600959 75.8610409 default_points with
     | None => []
     | Some (p, d) => [mkAlert (p_type p) (p_name p) (js_round d)]
     end).
Proof.
  split; [lra |].
  apply on_position_first_fix_no_speed_alert; lra.
Defined.

(** X2: when the clock has advanced since the stored position, the speed
    is [distance / elapsedSeconds * 3.6]: a non-negative number whenever the
    distance is a number, and NaN when the distance is NaN. *)
Theorem speed_step_positive_elapsed (lp : LastPos) (lat lng : R)
    (now1 now2 : Z) :
  (lp_time lp < now1)%Z ->
  (forall d,
     calculateDistance (lp_lat lp) (lp_lng lp) lat lng = Fin d ->
     fst (speed_step (Some lp) lat lng now1 now2) =
       Fin (d / (IZR (now1 - lp_time lp) / 1000) * (36 / 10)) /\
     0 <= d / (IZR (now1 - lp_time lp) / 1000) * (36 / 10)) /\
  (calculateDistance (lp_lat lp) (lp_lng lp) lat lng = NaN ->
     fst (speed_step (Some lp) lat lng now1 now2) = NaN).
Proof.
  intros Ht.
  assert (Hdt : 0 < IZR (now1 - lp_time lp) / 1000).
  { apply Rdiv_pos_pos; [apply IZR_lt; lia | lra]. }
  split.
  - intros d Hd.
    pose proof (calculateDistance_fin_nonneg _ _ _ _ _ Hd) as Hd0.
    split.
    + unfold speed_step; simpl; rewrite Hd; unfold js_div.
      destruct (Req_dec_T (IZR (now1 - lp_time lp) / 1000) 0); [lra |].
      reflexivity.
    + apply Rmult_le_pos; [| lra].
      unfold Rdiv at 1; apply Rmult_le_pos; [lra |].
      left; apply Rinv_0_lt_compat; exact Hdt.
  - intro Hd; unfold speed_step; simpl; rewrite Hd; reflexivity.
Qed.

Lemma speed_step_positive_elapsed_witness :
  (0 < 36000)%Z /\
  (forall d,
     calculateDistance 0 0 1 0 = Fin d ->
     fst (speed_step (Some (mkLastPos 0 0 0)) 1 0 36000 36000) =
       Fin (d / (IZR (36000 - 0) / 1000) * (36 / 10)) /\
     0 <= d / (IZR (36000 - 0) / 1000) * (36 / 10)) /\
  (calculateDistance 0 0 1 0 = NaN ->
     fst (speed_step (Some (mkLastPos 0 0 0)) 1 0 36000 36000) = NaN).
Proof.
  assert (Ht : (0 < 36000)%Z) by lia.
  split; [exact Ht |].
  exact (speed_step_positive_elapsed (mkLastPos 0 0 0) 1 0 36000 36000 Ht).
Defined.

(** X3: two callbacks in the same millisecond at positions a positive
    distance apart give an infinite speed ([distance / 0]); then any
    selected point raises a ['Speed Alert'], whatever the finite limit. *)
Theorem speed_step_zero_elapsed_moved_infinite (lp : LastPos) (lat lng : R)
    (now2 : Z) (r : R) :
  calculateDistance (lp_lat lp) (lp_lng lp) lat lng = Fin r -> 0 < r ->
  fst (speed_step (Some lp) lat lng (lp_time lp) now2) = PInf /\
  forall toFixed1 limitToString points speedLimit p d,
    nearestPoint lat lng points = Some (p, d) ->
    map a_type (snd (on_position toFixed1 limitToString points speedLimit
                       (Some lp) lat lng (lp_time lp) now2)) =
      ["Speed Alert"%string].
Proof.
  intros Hd Hr.
  assert (Hs : fst (speed_step (Some lp) lat lng (lp_time lp) now2) = PInf).
  { unfold speed_step; simpl; rewrite Hd, Z.sub_diag.
    replace (IZR 0 / 1000) with 0 by (simpl; field).
    unfold js_div, inf_scale.
    destruct (Req_dec_T 0 0) as [_ | H]; [| lra].
    destruct (Req_dec_T r 0); [lra |].
    destruct (Rlt_dec 0 r); [| lra].
    simpl; unfold inf_scale.
    destruct (Req_dec_T (36 / 10) 0); [lra |].
    destruct (Rlt_dec 0 (36 / 10)); [reflexivity | lra]. }
  split; [exact Hs |].
  intros toFixed1 limitToString points speedLimit p d Hsel.
  unfold on_position.
  destruct (speed_step (Some lp) lat lng (lp_time lp) now2) as [sp st].
  simpl in Hs; subst sp; simpl.
  unfold checkProximityAndSpeed; rewrite Hsel; reflexivity.
Qed.

Lemma speed_step_zero_elapsed_moved_infinite_witness :
  calculateDistance 0 0 1 0 = Fin one_degree_distance /\
  0 < one_degree_distance /\
  fst (speed_step (Some (mkLastPos 0 0 1000)) 1 0 1000 1000) = PInf /\
  forall toFixed1 limitToString points speedLimit p d,
    nearestPoint 1 0 points = Some (p, d) ->
    map a_type (snd (on_position toFixed1 limitToString points speedLimit
                       (Some (mkLastPos 0 0 1000)) 1 0 1000 1000)) =
      ["Speed Alert"%string].
Proof.
  destruct calculateDistance_one_degree as [Hd Hr].
  split; [exact Hd |]; split; [exact Hr |].
  exact (speed_step_zero_elapsed_moved_infinite (mkLastPos 0 0 1000) 1 0 1000
           one_degree_distance Hd Hr).
Defined.

(** X4: when the clock reads earlier than the stored time and the user has
    moved, the speed is a finite negative number. *)
Theorem speed_step_clock_backwards_negative (lp : LastPos) (lat lng : R)
    (now1 now2 : Z) (r : R) :
  calculateDistance (lp_lat lp) (lp_lng lp) lat lng = Fin r -> 0 < r ->
  (now1 < lp_time lp)%Z ->
  exists s, fst (speed_step (Some lp) lat lng now1 now2) = Fin s /\ s < 0.
Proof.
  intros Hd Hr Ht.
  assert (Hdt : IZR (now1 - lp_time lp) / 1000 < 0).
  { apply Rdiv_neg_pos; [apply IZR_lt; lia | lra]. }
  unfold speed_step; simpl; rewrite Hd; unfold js_div.
  destruct (Req_dec_T (IZR (now1 - lp_time lp) / 1000) 0); [lra |].
  eexists; split; [reflexivity |].
  assert (r / (IZR (now1 - lp_time lp) / 1000) < 0)
    by (apply Rdiv_pos_neg; lra).
  lra.
Qed.

Lemma speed_step_clock_backwards_negative_witness :
  calculateDistance 0 0 1 0 = Fin one_degree_distance /\
  0 < one_degree_distance /\ (500 < 1000)%Z /\
  exists s, fst (speed_step (Some (mkLastPos 0 0 1000)) 1 0 500 500) = Fin s
            /\ s < 0.
Proof.
  destruct calculateDistance_one_degree as [Hd Hr].
  assert (Ht : (500 < 1000)%Z) by lia.
  split; [exact Hd |]; split; [exact Hr |]; split; [exact Ht |].
  exact (speed_step_clock_backwards_negative (mkLastPos 0 0 1000) 1 0 500 500
           one_degree_distance Hd Hr Ht).
Defined.

(** X5: a repeated callback in the same millisecond at the same spot
    computes the speed NaN, and NaN is never above the limit: with a
    non-negative limit it raises the same alerts as a first callback at that
    position. *)
Theorem on_position_same_ms_same_spot_as_first_fix
    (toFixed1 : num -> string) (limitToString : R -> string)
    (points : list Point) (speedLimit : R) (lp : LastPos) (lat lng : R)
    (now1 now2 : Z) :
  calculateDistance (lp_lat lp) (lp_lng lp) lat lng = Fin 0 ->
  0 <= speedLimit ->
  fst (speed_step (Some lp) lat lng (lp_time lp) now2) = NaN /\
  snd (on_position toFixed1 limitToString points speedLimit (Some lp)
         lat lng (lp_time lp) now2) =
  snd (on_position toFixed1 limitToString points speedLimit None
         lat lng now1 now2).
Proof.
  intros Hd Hl.
  assert (Hs : speed_step (Some lp) lat lng (lp_time lp) now2 =
               (NaN, Some (mkLastPos lat lng now2))).
  { unfold speed_step; simpl; rewrite Hd, Z.sub_diag.
    replace (IZR 0 / 1000) with 0 by (simpl; field).
    unfold js_div, inf_scale.
    destruct (Req_dec_T 0 0) as [_ | H]; [| lra].
    reflexivity. }
  rewrite Hs; split; [reflexivity |].
  unfold on_position; rewrite Hs.
  simpl; unfold checkProximityAndSpeed.
  destruct (nearestPoint lat lng points) as [[p d] |]; [| reflexivity].
  unfold js_gt; simpl; destruct (Rlt_dec speedLimit 0); [lra | reflexivity].
Qed.

Lemma on_position_same_ms_same_spot_as_first_fix_witness :
  calculateDistance 30.8600959 75.8610409 30.8600959 75.8610409 = Fin 0 /\
  0 <= 5 /\
  fst (speed_step (Some (mkLastPos 30.8600959 75.8610409 1000))
         30.8600959 75.8610409 1000 1000) = NaN /\
  snd (on_position (fun _ => EmptyString) (fun _ => EmptyString)
         default_points 5 (Some (mkLastPos 30.8600959 75.8610409 1000))
         30.8600959 75.8610409 1000 1000) =
  snd (on_position (fun _ => EmptyString) (fun _ => EmptyString)
         default_points 5 None 30.8600959 75.8610409 1000 1000).
Proof.
  assert (Hd : calculateDistance 30.8600959 75.8610409 30.8600959 75.8610409
               = Fin 0) by apply calculateDistance_same.
  assert (Hl : 0 <= 5) by lra.
  split; [exact Hd |]; split; [exact Hl |].
  exact (on_position_same_ms_same_spot_as_first_fix _ _ default_points 5
           (mkLastPos 30.8600959 75.8610409 1000) 30.8600959 75.8610409
           1000 1000 Hd Hl).
Defined.

Lemma checkProximity_in_range_nonempty (points : list Point)
    (userLat userLng : R) (p : Point) :
  In p points -> js_le (dist_to_v1 userLat userLng p) (Fin 100) = true ->
  checkProximity points userLat userLng <> [].
Proof.
  induction points as [| x rest IH]; simpl; [intros [] |].
  intros [-> | Hp] Hle.
  - rewrite Hle; discriminate.
  - destruct (js_le (dist_to_v1 userLat userLng x) (Fin 100));
      [discriminate | auto].
Qed.

(** X6: whenever the second version alerts, the first version alerts too on
    the same position and points: a point within 10 m is within 100 m. *)
Theorem checkProximityAndSpeed_alert_implies_checkProximity_alert
    (toFixed1 : num -> string) (limitToString : R -> string)
    (points : list Point) (speedLimit userLat userLng : R)
    (userSpeed : num) :
  checkProximityAndSpeed toFixed1 limitToString points speedLimit
    userLat userLng userSpeed <> [] ->
  checkProximity points userLat userLng <> [].
Proof.
  intro H.
  assert (Hinv : loop_inv None PInf) by (left; auto).
  destruct (nearest_loop_spec userLat userLng points None PInf Hinv)
    as [[Hres _] | (i & p & r & Hi & _ & Hpd & Hpr & _)].
  - exfalso; apply H; unfold checkProximityAndSpeed, nearestPoint.
    rewrite Hres; reflexivity.
  - apply (checkProximity_in_range_nonempty _ _ _ p (nth_error_In _ _ Hi)).
    unfold dist_to_v1; rewrite calculateDistance_v1_same_as_v2.
    fold (dist_to userLat userLng p); rewrite Hpd; apply js_le_Fin; lra.
Qed.

Lemma checkProximityAndSpeed_alert_implies_checkProximity_alert_witness :
  let p := mkPoint "Lipton Camera-2" "CCTV" 30.8600959 75.8610409 in
  checkProximityAndSpeed (fun _ => EmptyString) (fun _ => EmptyString)
    [p] 5 (p_lat p) (p_lng p) (Fin 0) <> [] /\
  checkProximity [p] (p_lat p) (p_lng p) <> [].
Proof.
  intro p.
  assert (H : checkProximityAndSpeed (fun _ => EmptyString)
                (fun _ => EmptyString) [p] 5 (p_lat p) (p_lng p) (Fin 0) <> []).
  { unfold checkProximityAndSpeed; rewrite nearestPoint_at_point.
    destruct (js_gt (Fin 0) (Fin 5)); discriminate. }
  split; [exact H |].
  exact (checkProximityAndSpeed_alert_implies_checkProximity_alert _ _ [p] 5
           (p_lat p) (p_lng p) (Fin 0) H).
Defined.

(** X7: [checkProximity] raises no alert exactly when no point is within
    100 (a NaN distance counts as out of range). *)
Theorem checkProximity_none_iff (points : list Point) (userLat userLng : R) :
  checkProximity points userLat userLng = [] <->
  Forall (fun p => js_le (dist_to_v1 userLat userLng p) (Fin 100) = false)
    points.
Proof.
  induction points as [| x rest IH]; simpl.
  - split; auto.
  - destruct (js_le (dist_to_v1 userLat userLng x) (Fin 100)) eqn:Hle.
    + split; [discriminate | intro H; inversion H; congruence].
    + rewrite IH; split; [intro H; constructor; auto | intro H; inversion H; auto].
Qed.

(** X8: [checkProximityAndSpeed] raises no alert exactly when every point
    with a finite distance is farther than 10. *)
Theorem checkProximityAndSpeed_none_iff
    (toFixed1 : num -> string) (limitToString : R -> string)
    (points : list Point) (speedLimit userLat userLng : R)
    (userSpeed : num) :
  checkProximityAndSpeed toFixed1 limitToString points speedLimit
    userLat userLng userSpeed = [] <->
  (forall q rq, In q points -> dist_to userLat userLng q = Fin rq -> 10 < rq).
Proof.
  rewrite <- nearestPoint_none_iff; unfold checkProximityAndSpeed.
  destruct (nearestPoint userLat userLng points) as [[p d] |];
    [| split; reflexivity].
  split; [| discriminate].
  destruct (js_gt userSpeed (Fin speedLimit)); discriminate.
Qed.

Lemma filter_due_nil (T : Z) (l : list Z) :
  (forall d, In d l -> (T < d)%Z) -> filter (fun d => (d <=? T)%Z) l = [].
Proof.
  induction l as [| x rest IH]; intro H; simpl; auto.
  destruct (x <=? T)%Z eqn:Hx.
  - apply Z.leb_le in Hx; specialize (H x (or_introl eq_refl)); lia.
  - apply IH; intros d Hd; apply H; right; exact Hd.
Qed.

(** X9: an alert raised at time [t] stays on the banner at every time [T]
    before [t + 5000] and before every timer already pending. *)
Theorem banner_shows_alert_until_timer (b : Banner) (t T : Z) (a : Alert) :
  (t <= T < t + 5000)%Z ->
  (forall d, In d (timers b) -> (T < d)%Z) ->
  alert (fire_timers T (handleProximityAlert t a b)) = Some a.
Proof.
  intros Ht Hb; unfold fire_timers, handleProximityAlert; simpl.
  rewrite filter_due_nil; [reflexivity |].
  intros d Hd; apply in_app_or in Hd as [Hd | [<- | []]]; auto; lia.
Qed.

Lemma banner_shows_alert_until_timer_witness :
  (4000 <= 4500 < 4000 + 5000)%Z /\
  (forall d, In d (timers (mkBanner None [5000%Z])) -> (4500 < d)%Z) /\
  alert (fire_timers 4500 (handleProximityAlert 4000
           (mkAlert "CCTV" "Library CCTV" (Fin 3)) (mkBanner None [5000%Z])))
  = Some (mkAlert "CCTV" "Library CCTV" (Fin 3)).
Proof.
  assert (H1 : (4000 <= 4500 < 4000 + 5000)%Z) by lia.
  assert (H2 : forall d, In d (timers (mkBanner None [5000%Z])) -> (4500 < d)%Z)
    by (simpl; intros d [<- | []]; lia).
  split; [exact H1 |]; split; [exact H2 |].
  exact (banner_shows_alert_until_timer _ 4000 4500 _ H1 H2).
Defined.

(** X10: the banner is empty at any time [T] reached by a pending timer:
    its own timer [t + 5000], or a timer left by an earlier alert, which
    clears the newer alert before its 5 seconds are over. *)
Theorem banner_cleared_by_any_due_timer (b : Banner) (t T d : Z) (a : Alert) :
  (In d (timers b) \/ d = (t + 5000)%Z) -> (d <= T)%Z ->
  alert (fire_timers T (handleProximityAlert t a b)) = None.
Proof.
  intros Hd HT; unfold fire_timers, handleProximityAlert; simpl.
  destruct (filter (fun d0 => (d0 <=? T)%Z) (timers b ++ [(t + 5000)%Z]))
    eqn:Hf; [| reflexivity].
  exfalso.
  assert (Hin : In d (filter (fun d0 => (d0 <=? T)%Z)
                       (timers b ++ [(t + 5000)%Z]))).
  { apply filter_In; split; [| apply Z.leb_le; exact HT].
    apply in_or_app; destruct Hd as [Hd | ->]; [left | right; left]; auto. }
  rewrite Hf in Hin; exact Hin.
Qed.

Lemma banner_cleared_by_any_due_timer_witness :
  (In 5000%Z (timers (mkBanner None [5000%Z])) \/ 5000%Z = (4000 + 5000)%Z) /\
  (5000 <= 5000)%Z /\
  alert (fire_timers 5000 (handleProximityAlert 4000
           (mkAlert "CCTV" "Library CCTV" (Fin 3)) (mkBanner None [5000%Z])))
  = None.
Proof.
  assert (H1 : In 5000%Z (timers (mkBanner None [5000%Z])) \/
               5000%Z = (4000 + 5000)%Z) by (left; left; reflexivity).
  assert (H2 : (5000 <= 5000)%Z) by lia.
  split; [exact H1 |]; split; [exact H2 |].
  exact (banner_cleared_by_any_due_timer _ 4000 5000 5000 _ H1 H2).
Defined.

(** X11: [initializeData] inserts the sample documents only into an empty
    collection, leaves a non-empty one untouched, and running it a second
    time changes nothing. *)
Theorem initializeData_idempotent (collection sampleData : list Point) :
  fst (initializeData collection sampleData) =
    match collection with [] => sampleData | _ => collection end /\
  fst (initializeData (fst (initializeData collection sampleData)) sampleData)
    = fst (initializeData collection sampleData).
Proof.
  destruct collection as [| c cs]; simpl; [| split; reflexivity].
  split; [reflexivity |].
  unfold initializeData; destruct sampleData; reflexivity.
Qed.

Lemma checkProximityAndSpeed_at_listed_point
    (toFixed1 : num -> string) (limitToString : R -> string)
    (points : list Point) (speedLimit : R) (userSpeed : num) (p : Point) :
  In p points ->
  checkProximityAndSpeed toFixed1 limitToString points speedLimit
    (p_lat p) (p_lng p) userSpeed <> [].
Proof.
  intros Hp; unfold checkProximityAndSpeed.
  destruct (nearestPoint (p_lat p) (p_lng p) points) as [[q d] |] eqn:Hsel.
  - destruct (js_gt userSpeed (Fin speedLimit)); discriminate.
  - intros _; apply nearestPoint_none_iff with (q := p) (rq := 0) in Hsel;
      [lra | exact Hp | apply calculateDistance_same].
Qed.

(** X12: when the request for the points fails in any way (rejected, not
    ok, or a body that does not parse), the tracker gets the four built-in
    points, and a user standing at any of them always gets an alert. *)
Theorem load_points_failure_defaults (r : FetchOutcome) :
  (forall data, r <> FetchResponse true (Some data)) ->
  load_points r = default_points /\
  forall toFixed1 limitToString speedLimit userSpeed p,
    In p (load_points r) ->
    checkProximityAndSpeed toFixed1 limitToString (load_points r) speedLimit
      (p_lat p) (p_lng p) userSpeed <> [].
Proof.
  intro Hfail.
  assert (Hd : load_points r = default_points).
  { destruct r as [| [] [data |]]; auto.
    exfalso; exact (Hfail data eq_refl). }
  split; [exact Hd |].
  intros toFixed1 limitToString speedLimit userSpeed p Hp.
  apply checkProximityAndSpeed_at_listed_point; exact Hp.
Qed.

Lemma load_points_failure_defaults_witness :
  (forall data, FetchResponse false None <> FetchResponse true (Some data)) /\
  load_points (FetchResponse false None) = default_points /\
  forall toFixed1 limitToString speedLimit userSpeed p,
    In p (load_points (FetchResponse false None)) ->
    checkProximityAndSpeed toFixed1 limitToString
      (load_points (FetchResponse false None)) speedLimit
      (p_lat p) (p_lng p) userSpeed <> [].
Proof.
  assert (H : forall data, FetchResponse false None <>
                           FetchResponse true (Some data)) by discriminate.
  split; [exact H |].
  exact (load_points_failure_defaults _ H).
Defined.

(** X13: an alert raised while speeding near a point is shown on the red
    banner. *)
Theorem speeding_alert_banner_red
    (toFixed1 : num -> string) (limitToString : R -> string)
    (points : list Point) (speedLimit userLat userLng : R)
    (userSpeed : num) (p : Point) (d : num) :
  nearestPoint userLat userLng points = Some (p, d) ->
  js_gt userSpeed (Fin speedLimit) = true ->
  map banner_color (checkProximityAndSpeed toFixed1 limitToString points
                      speedLimit userLat userLng userSpeed) =
    ["#f44336"%string].
Proof.
  intros Hsel Hgt; unfold checkProximityAndSpeed; rewrite Hsel, Hgt.
  reflexivity.
Qed.

Lemma speeding_alert_banner_red_witness :
  let p := mkPoint "Lipton Camera-2" "CCTV" 30.8600959 75.8610409 in
  nearestPoint (p_lat p) (p_lng p) [p] = Some (p, Fin 0) /\
  js_gt (Fin 12) (Fin 5) = true /\
  map banner_color (checkProximityAndSpeed (fun _ => EmptyString)
                      (fun _ => EmptyString) [p] 5 (p_lat p) (p_lng p)
                      (Fin 12)) = ["#f44336"%string].
Proof.
  intro p.
  assert (H1 : nearestPoint (p_lat p) (p_lng p) [p] = Some (p, Fin 0))
    by apply nearestPoint_at_point.
  assert (H2 : js_gt (Fin 12) (Fin 5) = true) by (apply js_lt_Fin; lra).
  split; [exact H1 |]; split; [exact H2 |].
  exact (speeding_alert_banner_red _ _ [p] 5 _ _ (Fin 12) p (Fin 0) H1 H2).
Defined.

Lemma js_round_positive (r : R) :
  0 <= r -> (js_gt (js_round (Fin r)) (Fin 0) = true <-> / 2 <= r).
Proof.
  intro Hr; unfold js_round, js_gt; rewrite js_lt_Fin.
  destruct (Rlt_dec r (/ 2)) as [Hlt | Hge].
  - assert (Hz : 0%Z = Int_part (r + / 2)) by (apply Int_part_spec; simpl; lra).
    rewrite <- Hz; simpl; split; intro H; lra.
  - destruct (base_Int_part (r + / 2)) as [_ H2]; split; intro; lra.
Qed.

(** X14: the banner omits the distance text exactly when the alerted point
    is closer than half a metre, since the alert carries the distance
    rounded to an integer and the text is only shown for a distance above
    0. *)
Theorem banner_distance_text_empty_iff_close
    (toFixed1 : num -> string) (limitToString : R -> string)
    (numToString : num -> string) (points : list Point)
    (speedLimit userLat userLng : R) (userSpeed : num) (p : Point) (d : num) :
  nearestPoint userLat userLng points = Some (p, d) ->
  Forall (fun a => banner_distance_text numToString a = ""%string <->
                   exists r, d = Fin r /\ r < / 2)
    (checkProximityAndSpeed toFixed1 limitToString points speedLimit
       userLat userLng userSpeed).
Proof.
  intro Hsel.
  destruct (nearestPoint_distance _ _ _ _ _ Hsel) as (r & -> & Hd & _).
  pose proof (calculateDistance_fin_nonneg _ _ _ _ _ Hd) as Hr.
  assert (Key : banner_distance_text numToString
                  (mkAlert "" "" (js_round (Fin r))) = ""%string <-> r < / 2).
  { unfold banner_distance_text.
    change (a_distance (mkAlert "" "" (js_round (Fin r))))
      with (js_round (Fin r)).
    pose proof (js_round_positive r Hr) as Hp.
    destruct (js_gt (js_round (Fin r)) (Fin 0)).
    - split; [intro H; simpl in H; discriminate H | intro; exfalso].
      assert (/ 2 <= r) by (apply Hp; reflexivity); lra.
    - split; [intros _ | reflexivity].
      destruct (Rlt_dec r (/ 2)); auto.
      assert (false = true) by (apply Hp; lra); discriminate. }
  assert (Gen : forall ty nm,
    banner_distance_text numToString (mkAlert ty nm (js_round (Fin r)))
      = ""%string <-> exists r', Fin r = Fin r' /\ r' < / 2).
  { intros ty nm; unfold banner_distance_text in *; simpl in *.
    rewrite Key; split; [eauto | intros (r' & Hr' & Hlt); inversion Hr'; lra]. }
  unfold checkProximityAndSpeed; rewrite Hsel.
  destruct (js_gt userSpeed (Fin speedLimit)); repeat constructor; apply Gen.
Qed.

Lemma banner_distance_text_empty_iff_close_witness :
  let p := mkPoint "Lipton Camera-2" "CCTV" 30.8600959 75.8610409 in
  nearestPoint (p_lat p) (p_lng p) [p] = Some (p, Fin 0) /\
  Forall (fun a => banner_distance_text (fun _ => EmptyString) a = ""%string
                   <-> exists r, Fin 0 = Fin r /\ r < / 2)
    (checkProximityAndSpeed (fun _ => EmptyString) (fun _ => EmptyString)
       [p] 5 (p_lat p) (p_lng p) (Fin 0)).
Proof.
  intro p.
  assert (H1 : nearestPoint (p_lat p) (p_lng p) [p] = Some (p, Fin 0))
    by apply nearestPoint_at_point.
  split; [exact H1 |].
  exact (banner_distance_text_empty_iff_close _ _ _ [p] 5 _ _ (Fin 0) p
           (Fin 0) H1).
Defined.
